(** * getscrambled.encode: block scrambling with an embedded unshuffle key

    A shallow embedding of [src/getscrambled/encode.py] and the properties
    its specification states about it.

    The module has three functions, [add_data_image], [encode_blocks] and
    [encode].  They work on a Python list of coordinate pairs that is
    created, shuffled in place, extended in place and finally read, so the
    list lives in a store and is passed around by reference.  The functions
    raise exceptions, consume the process-wide random generator and call
    into PIL, numpy, stegano and the sibling module [shared]; the embedding
    threads a [World] through a small state-and-exception monad and records
    every call that leaves the module. *)

From Stdlib Require Import ZArith List Ascii String DecimalString Lia.
From stdpp Require Import base option list gmap strings.
From Stdlib Require Import DecimalPos DecimalZ.
From Stdlib Require DecimalFacts.

Local Open Scope Z_scope.

(** ** Python values *)

(** A number as it can sit in a [blocks] entry: an [int], a finite [float]
    (a binary float is [m * 2^e] for integers [m] and [e]), a NaN or an
    infinity. *)
Inductive PyNum : Type :=
| PyInt (z : Z)
| PyFloat (m e : Z)
| PyNaN
| PyInf (negative : bool).

(** A [blocks] entry, [(x, y)]. *)
Definition pair : Type := PyNum * PyNum.

(** A block origin as the grid builder produces it. *)
Definition Coordinate : Type := Z * Z.

Definition of_coordinate (c : Coordinate) : pair := (PyInt (fst c), PyInt (snd c)).

(** [PIL.Image.Image], as far as this module looks at it: the [format]
    attribute, the [size] attribute and the pixel grid. *)
Record Image : Type := {
  format : option string;
  size : Coordinate;
  pixels : Z -> Z -> Z
}.

(** The [image] argument is an image or a [str] holding a path. *)
Inductive image_arg : Type :=
| Path (p : string)
| Img (i : Image).

(** Python lists are objects in a store, named by their location. *)
Definition loc : Type := positive.

(** ** Exceptions *)

(** What leaves the module's dependencies when they fail. *)
Inductive library : Type := PIL | numpy | stegano | shared.

Inductive exn : Type :=
| ImageFormatError (image : Image)
| ValueError
| OverflowError
| TypeError
| LibraryError (origin : library) (message : string).

Inductive outcome (A : Type) : Type :=
| Return (a : A)
| Raise (e : exn).
Arguments Return {A} a.
Arguments Raise {A} e.

(** What a dependency answers: a value, or a failure of its own.  The
    dependencies have their own exception classes; [ImageFormatError] is
    raised by this module's format gate only. *)
Inductive answer (A : Type) : Type :=
| Fine (a : A)
| Failed (message : string).
Arguments Fine {A} a.
Arguments Failed {A} message.

(** ** The world the module runs in *)

(** The process-wide generator behind [np.random], seen through
    [random_interval]: the values successive calls of [random_interval]
    bring into range, and how many calls have been made.  How many words
    of the underlying generator a call spends, and which streams that
    generator can produce, are not modelled; what is proved of the list
    for every stream holds for the stream of the run. *)
Record RandomState : Type := {
  stream : nat -> nat;
  cursor : nat
}.

(** A call that leaves the module. *)
Inductive call : Type :=
| Call_open (path : string)
| Call_create_block_grid (width height block_size : Z)
| Call_shuffle (blocks : loc)
| Call_arrange_blocks (image : Image) (block_size : Z) (blocks : loc)
| Call_hide (image : Image) (message : string).

Record World : Type := {
  heap : gmap loc (list pair);
  random : RandomState;
  calls : list call            (* most recent first *)
}.

Definition M (A : Type) : Type := World -> outcome A * World.

Definition ret {A} (a : A) : M A := fun w => (Return a, w).

Definition raise {A} (e : exn) : M A := fun w => (Raise e, w).

Definition bind {A B} (m : M A) (k : A -> M B) : M B :=
  fun w =>
    match m w with
    | (Return a, w') => k a w'
    | (Raise e, w') => (Raise e, w')
    end.

Definition lift {A} (o : outcome A) : M A := fun w => (o, w).

Global Instance M_ret : MRet M := @ret.
Global Instance M_bind : MBind M := fun A B k m => bind m k.

Definition record_call (c : call) : M unit :=
  fun w => (Return tt, {| heap := heap w; random := random w; calls := c :: calls w |}).

(** ** Built-ins *)

(** [int(x)].  An [int] is returned as it is, a finite float is truncated
    toward zero, [int(nan)] raises [ValueError] and [int(inf)] raises
    [OverflowError]. *)
Definition py_int (x : PyNum) : outcome Z :=
  match x with
  | PyInt z => Return z
  | PyFloat m e => Return (if 0 <=? e then m * 2 ^ e else Z.quot m (2 ^ (- e)))
  | PyNaN => Raise ValueError
  | PyInf _ => Raise OverflowError
  end.

(** [str(z)] for an [int]: decimal digits, a leading [-] when negative. *)
Definition py_str (z : Z) : string := NilZero.string_of_int (Z.to_int z).

(** [sep.join(items)]. *)
Fixpoint join (sep : string) (items : list string) : string :=
  match items with
  | [] => EmptyString
  | [s] => s
  | s :: rest => String.append s (String.append sep (join sep rest))
  end.

(** [json.dumps(number_list, separators=(',', ':'))] on a list of [int]:
    the items in decimal between brackets, separated by the item separator
    alone. *)
Definition json_dumps (number_list : list Z) : string :=
  String.append "[" (String.append (join "," (map py_str number_list)) "]").


(** ** The store of lists *)

Definition set_heap (h : gmap loc (list pair)) (w : World) : World :=
  {| heap := h; random := random w; calls := calls w |}.

Definition set_random (r : RandomState) (w : World) : World :=
  {| heap := heap w; random := r; calls := calls w |}.

(** A new list object. *)
Definition alloc (items : list pair) : M loc :=
  fun w => let l := fresh (dom (heap w)) in (Return l, set_heap (<[l := items]> (heap w)) w).

(** Reading the list behind a reference; an object that is no list cannot
    be iterated or indexed. *)
Definition read_list (l : loc) : M (list pair) :=
  fun w => match heap w !! l with
           | Some items => (Return items, w)
           | None => (Raise TypeError, w)
           end.

Definition write_list (l : loc) (items : list pair) : M unit :=
  fun w => (Return tt, set_heap (<[l := items]> (heap w)) w).

(** [l.insert(index, item)] for a non-negative index: the list object
    itself grows. *)
Definition list_insert (l : loc) (index : nat) (item : pair) : M unit :=
  items ← read_list l;
  write_list l (take index items ++ item :: drop index items).

(** ** numpy's shuffle *)

(** [random_interval(bitgen, max)] answers a value in [0 .. max].  The
    value is the next one of the stream; the reduction keeps the model
    total on a stream that holds larger values. *)
Definition random_interval (r : RandomState) (max : nat) : nat * RandomState :=
  (stream r (cursor r) mod S max, {| stream := stream r; cursor := S (cursor r) |})%nat.

(** [x[i], x[j] = x[j], x[i]]. *)
Definition swap {A} (x : list A) (i j : nat) : list A :=
  match x !! i, x !! j with
  | Some xi, Some xj => <[j := xi]> (<[i := xj]> x)
  | _, _ => x
  end.

(** The loop of [shuffle] on a sequence that is no array,
    [for i in reversed(range(1, n)): j = random_interval(i); swap i j],
    entered with [i] at the value it has in the first round. *)
Fixpoint shuffle_loop {A} (i : nat) (x : list A) (r : RandomState) : list A * RandomState :=
  match i with
  | O => (x, r)
  | S i' => let (j, r') := random_interval r i in shuffle_loop i' (swap x i j) r'
  end.

Definition shuffle {A} (x : list A) (r : RandomState) : list A * RandomState :=
  shuffle_loop (length x - 1) x r.

(** [np.random.shuffle(blocks)]: the list object is reordered in place and
    the process-wide generator moves on. *)
Definition shuffle_in_place (blocks : loc) (x : list pair) : M unit :=
  fun w => let (x', r') := shuffle x (random w) in
           (Return tt, set_random r' (set_heap (<[blocks := x']> (heap w)) w)).

Definition np_random_shuffle (blocks : loc) : M unit :=
  record_call (Call_shuffle blocks);;
  x ← read_list blocks;
  shuffle_in_place blocks x.

(** ** The format gate *)

(** [image.format in ("PNG", None)]. *)
Definition format_allowed (f : option string) : bool :=
  match f with
  | None => true
  | Some s => String.eqb s "PNG"
  end.

Definition format_gate (image : Image) : M unit :=
  if format_allowed (format image) then mret tt else raise (ImageFormatError image).

(** The loop of [add_data_image] that fills [number_list]. *)
Fixpoint fill_number_list (number_list : list Z) (blocks : list pair) : outcome (list Z) :=
  match blocks with
  | [] => Return number_list
  | (x, y) :: rest =>
      match py_int x with
      | Raise e => Raise e
      | Return ix =>
          match py_int y with
          | Raise e => Raise e
          | Return iy => fill_number_list ((number_list ++ [ix]) ++ [iy]) rest
          end
      end
  end.

(** ** The module *)

Section Encode.

(** [constants.BLOCK_SIZE]. *)
Variable BLOCK_SIZE : Z.

(** [PIL.Image.open], on the file system of the run. *)
Variable Image_open : string -> answer Image.

(** [shared.create_block_grid(width, height, block_size)]. *)
Variable create_block_grid : Z -> Z -> Z -> answer (list Coordinate).

(** [shared.arrange_blocks(image, block_size, blocks)]; it reads the list
    and returns a new image. *)
Variable arrange_blocks : Image -> Z -> list pair -> answer Image.

(** [stegano.lsb.hide(image, message)]. *)
Variable lsb_hide : Image -> string -> answer Image.

Definition from_library {A} (origin : library) (a : answer A) : M A :=
  match a with
  | Fine v => mret v
  | Failed message => raise (LibraryError origin message)
  end.

(** [if isinstance(image, str): image = PIL.Image.open(image)]. *)
Definition resolve (image : image_arg) : M Image :=
  match image with
  | Path p => record_call (Call_open p);; from_library PIL (Image_open p)
  | Img i => mret i
  end.

(** The call that builds the grid and binds [blocks] to it.  The grid
    builder is taken to hand back a list of its own making, so the list is
    a new object of the store. *)
Definition call_create_block_grid (width height block_size : Z) : M loc :=
  record_call (Call_create_block_grid width height block_size);;
  grid ← from_library shared (create_block_grid width height block_size);
  alloc (map of_coordinate grid).

Definition call_arrange_blocks (image : Image) (block_size : Z) (blocks : loc) : M Image :=
  record_call (Call_arrange_blocks image block_size blocks);;
  items ← read_list blocks;
  from_library shared (arrange_blocks image block_size items).

Definition call_hide (image : Image) (message : string) : M Image :=
  record_call (Call_hide image message);;
  from_library stegano (lsb_hide image message).

Definition add_data_image (image : image_arg) (blocks : loc) : M Image :=
  image ← resolve image;
  format_gate image;;
  items ← read_list blocks;
  number_list ← lift (fill_number_list [] items);
  let json_data := json_dumps number_list in
  call_hide image json_data.

Definition encode_blocks (image : image_arg) (block_size : option Z) : M (loc * Image) :=
  let block_size := default BLOCK_SIZE block_size in
  image ← resolve image;
  format_gate image;;
  blocks ← call_create_block_grid (fst (size image)) (snd (size image)) block_size;
  np_random_shuffle blocks;;
  encoded_image ← call_arrange_blocks image block_size blocks;
  list_insert blocks 0 (PyInt block_size, PyInt block_size);;
  list_insert blocks 0 (of_coordinate (size image));;
  mret (blocks, encoded_image).

Definition encode (image : image_arg) (block_size : option Z) : M Image :=
  r ← encode_blocks image block_size;
  add_data_image (Img (snd r)) (fst r).

End Encode.

(** ** The collaborators, from the specification *)

Module FromSpec.

(** [range(0, stop, step)] for a positive step. *)
Definition range_step (stop step : Z) : list Z :=
  (fun k => k * step) <$> seqZ 0 ((stop + step - 1) / step).

(** Modelled from the spec: [shared.create_block_grid] is not among the
    sources.  Section 4.1: the canonical row-major sequence of block-origin
    coordinates spaced exactly [block_size] apart in each axis, covering
    [0, width) x [0, height), a trailing partial row or column included;
    the block size is a positive integer. *)
Definition create_block_grid (width height block_size : Z) : answer (list Coordinate) :=
  if 0 <? block_size then
    Fine (y ← range_step height block_size;
          x ← range_step width block_size;
          [(x, y)])
  else Failed "block size must be positive".

Definition grid_size (width height block_size : Z) : nat :=
  match create_block_grid width height block_size with
  | Fine grid => length grid
  | Failed _ => O
  end.

(** Modelled from the spec: [shared.arrange_blocks] is not among the
    sources.  Section 4.3: for each canonical grid position [i] the pixel
    content of the block at [permutation[i]] in the source image is copied
    into position [i] of a new image of identical dimensions and format;
    it fails with ShapeMismatch when the permutation's length is not the
    grid size. *)
Definition arrange_blocks (image : Image) (block_size : Z) (permutation : list pair)
  : answer Image :=
  let width := fst (size image) in
  let height := snd (size image) in
  if (0 <? block_size) && (length permutation =? grid_size width height block_size)%nat then
    Fine {| format := format image;
            size := size image;
            pixels := fun x y =>
              let columns := (width + block_size - 1) / block_size in
              let i := Z.to_nat (y / block_size * columns + x / block_size) in
              match permutation !! i with
              | Some (PyInt px, PyInt py) =>
                  pixels image (px + x mod block_size) (py + y mod block_size)
              | _ => pixels image x y
              end |}
  else Failed "ShapeMismatch".

(** Modelled from the spec: the decoder is not among the sources.
    Section 4.4: deserialize fails with MalformedPayload if the flattened
    sequence length is odd, or fewer than 4 integers. *)
Definition malformed_payload (number_list : list Z) : bool :=
  Nat.odd (length number_list) || (length number_list <? 4)%nat.

End FromSpec.

(** ** Sample inputs *)

Definition sample_image : Image :=
  {| format := Some "PNG"%string; size := (256, 256); pixels := fun x y => x + 256 * y |}.

Definition sample_jpeg : Image :=
  {| format := Some "JPEG"%string; size := (256, 256); pixels := fun x y => x + 256 * y |}.

Definition small_image : Image :=
  {| format := None; size := (4, 4); pixels := fun x y => x + 4 * y |}.

(** A file system with one PNG and one JPEG file. *)
Definition sample_open (path : string) : answer Image :=
  if String.eqb path "image.png" then Fine sample_image
  else if String.eqb path "photo.jpg" then Fine sample_jpeg
  else Failed "No such file or directory".

(** An embedding that accepts every message and leaves the image as it is
    to the eye. *)
Definition sample_hide (image : Image) (message : string) : answer Image :=
  Fine image.

Definition sample_random : RandomState :=
  {| stream := fun k => (7 * k + 3)%nat; cursor := O |}.

Definition empty_world : World :=
  {| heap := ∅; random := sample_random; calls := [] |}.

Definition the_grid (a : answer (list Coordinate)) : list Coordinate :=
  match a with
  | Fine grid => grid
  | Failed _ => []
  end.

Definition the_image (fallback : Image) (a : answer Image) : Image :=
  match a with
  | Fine image => image
  | Failed _ => fallback
  end.

(** The 4 x 4 image in blocks of 2, and the 256 x 256 image in blocks of
    32, as the collaborators of the specification treat them. *)
Definition small_grid : list Coordinate := the_grid (FromSpec.create_block_grid 4 4 2).

Definition small_arranged : Image :=
  the_image small_image
    (FromSpec.arrange_blocks small_image 2
       (of_coordinate <$> fst (shuffle small_grid sample_random))).

Definition sample_grid : list Coordinate := the_grid (FromSpec.create_block_grid 256 256 32).

Definition sample_arranged : Image :=
  the_image sample_image
    (FromSpec.arrange_blocks sample_image 32
       (of_coordinate <$> fst (shuffle sample_grid sample_random))).

(** A store whose list 1 holds fractional coordinates, 2.75 and -3.5 among
    them, and one whose list 1 holds a NaN. *)
Definition fractional_blocks : list pair :=
  [(PyFloat 11 (-2), PyInt 3); (PyInt (-4), PyFloat (-7) (-1))].

Definition fractional_world : World :=
  {| heap := {[ 1%positive := fractional_blocks ]}; random := sample_random; calls := [] |}.

Definition nan_world : World :=
  {| heap := {[ 1%positive := [(PyInt 1, PyNaN)] ]}; random := sample_random; calls := [] |}.

(** The generator state from which a shuffle of [n] items swaps every item
    with itself. *)
Definition identity_random (n : nat) (r : RandomState) : RandomState :=
  {| stream := fun k => (n - 1 - (k - cursor r))%nat; cursor := cursor r |}.

(** ** Vocabulary of the statements *)

(** Coordinate pairs flattened, [x0, y0, x1, y1, ...]. *)
Definition flatten (pairs : list Coordinate) : list Z :=
  c ← pairs; [fst c; snd c].

(** The image behind the [image] argument, on a given file system. *)
Definition image_behind (Image_open : string → answer Image) (image : image_arg)
  : answer Image :=
  match image with
  | Path p => Image_open p
  | Img i => Fine i
  end.

(** The world once the [image] argument has been looked at: a path has
    been handed to [PIL.Image.open], nothing else has happened. *)
Definition after_open (image : image_arg) (w : World) : World :=
  match image with
  | Path p => {| heap := heap w; random := random w; calls := Call_open p :: calls w |}
  | Img _ => w
  end.

(** The entry [p] goes through [int] without an exception and yields [c]. *)
Definition coerced (p : pair) (c : Coordinate) : Prop :=
  py_int (fst p) = Return (fst c) ∧ py_int (snd p) = Return (snd c).

Fixpoint string_forall (P : ascii → bool) (s : string) : bool :=
  match s with
  | EmptyString => true
  | String c rest => P c && string_forall P rest
  end.

(** The characters of a compact JSON array of integers. *)
Definition token_alphabet : string := "[],-0123456789".

Definition in_alphabet (c : ascii) : bool :=
  existsb (Ascii.eqb c) (list_ascii_of_string token_alphabet).

(** JSON whitespace: space, tab, line feed, carriage return. *)
Definition is_whitespace (c : ascii) : bool :=
  existsb (Ascii.eqb c) [" "; "009"; "010"; "013"]%char.

(** ** More sample inputs *)

(** An embedding with room for 8 characters. *)
Definition narrow_hide (image : Image) (message : string) : answer Image :=
  if (String.length message <=? 8)%nat then Fine image
  else Failed "The message you want to hide is too long".

(** A store whose list 1 has a good entry, then an entry with an infinity
    before a NaN. *)
Definition overflow_blocks : list pair :=
  [(PyInt 1, PyFloat 5 (-1)); (PyInf false, PyNaN); (PyNaN, PyInt 0)].

Definition overflow_world : World :=
  {| heap := {[ 1%positive := overflow_blocks ]}; random := sample_random; calls := [] |}.

(** A store whose list 1 holds integer pairs, and one whose list 1 is
    empty. *)
Definition integral_world : World :=
  {| heap := {[ 1%positive := of_coordinate <$> [(0, 0); (2, 0); (-1, 7)] ]};
     random := sample_random; calls := [] |}.

Definition empty_list_world : World :=
  {| heap := {[ 1%positive := [] ]}; random := sample_random; calls := [] |}.

(** The characters that end an item of a compact JSON array. *)
Definition is_delimiter (c : ascii) : bool :=
  Ascii.eqb c "," || Ascii.eqb c "]".

(** ** The wire format, read *)

(** The embedded payload as the specification words it: a JSON array of
    integers without whitespace, [[W,H,S,S,x0,y0,...]].  The reader below
    accepts a text only if it is an opening bracket, integers separated by
    single commas, and a closing bracket, each integer in decimal without
    sign for a non-negative one, with a leading minus for a negative one,
    and without superfluous zeros.  It evaluates the digits itself. *)
Definition digit_value (c : ascii) : option Z :=
  let code := Z.of_nat (nat_of_ascii c) in
  if (48 <=? code) && (code <=? 57) then Some (code - 48) else None.

Fixpoint read_digits (value : Z) (digits : string) : option Z :=
  match digits with
  | EmptyString => Some value
  | String c rest =>
      match digit_value c with
      | Some d => read_digits (10 * value + d) rest
      | None => None
      end
  end.

Definition read_natural (text : string) : option Z :=
  match text with
  | EmptyString => None
  | String c rest =>
      if Ascii.eqb c "0" then
        match rest with
        | EmptyString => Some 0
        | String _ _ => None
        end
      else read_digits 0 text
  end.

Definition read_integer (text : string) : option Z :=
  match text with
  | EmptyString => None
  | String c rest =>
      if Ascii.eqb c "-" then
        match read_natural rest with
        | Some n => if n =? 0 then None else Some (- n)
        | None => None
        end
      else read_natural text
  end.

(** The items after the opening bracket; [token] holds the characters of
    the item being read. *)
Fixpoint read_items (token : string) (text : string) : option (list Z) :=
  match text with
  | EmptyString => None
  | String c rest =>
      if Ascii.eqb c "]" then
        match rest, read_integer token with
        | EmptyString, Some z => Some [z]
        | _, _ => None
        end
      else if Ascii.eqb c "," then
        match read_integer token, read_items EmptyString rest with
        | Some z, Some items => Some (z :: items)
        | _, _ => None
        end
      else read_items (String.append token (String c EmptyString)) rest
  end.

Definition read_array (text : string) : option (list Z) :=
  match text with
  | EmptyString => None
  | String c rest =>
      if Ascii.eqb c "[" then
        if String.eqb rest "]" then Some [] else read_items EmptyString rest
      else None
  end.

Example py_str_examples :
  py_str 0 = "0"%string /\ py_str 256 = "256"%string /\ py_str (-7) = "-7"%string.
Proof. repeat split; reflexivity. Qed.

Example json_dumps_examples :
  json_dumps [] = "[]"%string /\ json_dumps [256; 256; 32; 32; 0; -7] = "[256,256,32,32,0,-7]"%string.
Proof. split; reflexivity. Qed.

Example read_array_examples :
  read_array "[256,256,32,32,0,-7]" = Some [256; 256; 32; 32; 0; -7]
  /\ read_array "[]" = Some []
  /\ read_array "[4, 4]" = None
  /\ read_array "[04]" = None
  /\ read_array "[-0]" = None
  /\ read_array "[4,]" = None
  /\ read_array "[4,4" = None
  /\ read_array "[4.0]" = None.
Proof. repeat split; reflexivity. Qed.

Example py_int_examples :
  py_int (PyFloat 11 (-2)) = Return 2 /\ py_int (PyFloat (-7) (-1)) = Return (-3)
  /\ py_int (PyFloat 3 2) = Return 12 /\ py_int (PyInt 5) = Return 5.
Proof. repeat split; reflexivity. Qed.

Example grid_examples :
  FromSpec.create_block_grid 4 4 2 = Fine [(0, 0); (2, 0); (0, 2); (2, 2)]
  /\ FromSpec.create_block_grid 5 3 2 = Fine [(0, 0); (2, 0); (4, 0); (0, 2); (2, 2); (4, 2)]
  /\ length sample_grid = 64%nat.
Proof. repeat split; reflexivity. Qed.

Example shuffle_example :
  fst (shuffle [1; 2; 3; 4; 5]%nat sample_random) = [2; 1; 5; 3; 4]%nat.
Proof. vm_compute. reflexivity. Qed.

(** ** The shuffle permutes *)

Section Shuffle.

Context {A : Type}.
Implicit Types (x : list A) (r : RandomState).

Lemma swap_Permutation x i j : swap x i j ≡ₚ x.
Proof.
  unfold swap.
  destruct (x !! i) as [xi|] eqn:Hi; [|done].
  destruct (x !! j) as [xj|] eqn:Hj; [|done].
  by apply Permutation_insert_swap.
Qed.

Lemma swap_diag x i : swap x i i = x.
Proof.
  unfold swap. destruct (x !! i) as [xi|] eqn:Hi; [|done].
  rewrite list_insert_insert_eq. by apply list_insert_id.
Qed.

Lemma shuffle_loop_Permutation i x r : fst (shuffle_loop i x r) ≡ₚ x.
Proof.
  revert x r. induction i as [|i IH]; intros x r; simpl; [done|].
  rewrite IH. apply swap_Permutation.
Qed.

Lemma shuffle_Permutation x r : fst (shuffle x r) ≡ₚ x.
Proof. apply shuffle_loop_Permutation. Qed.

Lemma shuffle_length x r : length (fst (shuffle x r)) = length x.
Proof. by rewrite shuffle_Permutation. Qed.

Lemma shuffle_NoDup x r : NoDup x → NoDup (fst (shuffle x r)).
Proof. intros H. by rewrite shuffle_Permutation. Qed.

Lemma shuffle_loop_identity (n : nat) (c : nat) i x r :
  (i < n)%nat →
  (∀ k, stream r k = (n - 1 - (k - c))%nat) →
  (cursor r + i = c + (n - 1))%nat →
  fst (shuffle_loop i x r) = x.
Proof.
  revert x r. induction i as [|i IH]; intros x r Hi Hs Hc; [done|].
  cbn [shuffle_loop random_interval]. rewrite Hs.
  replace (n - 1 - (cursor r - c))%nat with (S i) by lia.
  rewrite Nat.mod_small by lia.
  rewrite swap_diag. apply IH; simpl; [lia|done|lia].
Qed.

Lemma shuffle_identity x r : fst (shuffle x (identity_random (length x) r)) = x.
Proof.
  unfold shuffle. destruct x as [|a x]; [done|].
  apply (shuffle_loop_identity (length (a :: x)) (cursor r)); simpl; [lia|done|lia].
Qed.

End Shuffle.

Lemma swap_fmap {A B} (f : A → B) (x : list A) i j :
  swap (f <$> x) i j = f <$> swap x i j.
Proof.
  unfold swap. rewrite !list_lookup_fmap.
  destruct (x !! i) as [xi|]; simpl; [|done].
  destruct (x !! j) as [xj|]; simpl; [|done].
  by rewrite !list_fmap_insert.
Qed.

Lemma shuffle_loop_fmap {A B} (f : A → B) i (x : list A) r :
  shuffle_loop i (f <$> x) r = (f <$> fst (shuffle_loop i x r), snd (shuffle_loop i x r)).
Proof.
  revert x r. induction i as [|i IH]; intros x r; simpl; [done|].
  by rewrite swap_fmap, IH.
Qed.

Lemma shuffle_fmap {A B} (f : A → B) (x : list A) r :
  shuffle (f <$> x) r = (f <$> fst (shuffle x r), snd (shuffle x r)).
Proof. unfold shuffle. rewrite length_fmap. apply shuffle_loop_fmap. Qed.

(** ** The payload *)

Lemma fill_number_list_coerced blocks ints number_list :
  Forall2 coerced blocks ints →
  fill_number_list number_list blocks = Return (number_list ++ flatten ints).
Proof.
  intros H. revert number_list.
  induction H as [|[x y] [cx cy] blocks ints [Hx Hy] _ IH]; intros number_list; simpl.
  - by rewrite app_nil_r.
  - simpl in Hx, Hy. rewrite Hx, Hy, IH. unfold flatten. simpl.
    by rewrite <- !app_assoc.
Qed.

Lemma fill_number_list_inv blocks number_list result :
  fill_number_list number_list blocks = Return result →
  ∃ ints, Forall2 coerced blocks ints ∧ result = number_list ++ flatten ints.
Proof.
  revert number_list. induction blocks as [|[x y] blocks IH]; intros number_list; simpl.
  - intros [= <-]. exists []. split; [constructor|by rewrite app_nil_r].
  - destruct (py_int x) as [ix|] eqn:Hx; [|done].
    destruct (py_int y) as [iy|] eqn:Hy; [|done].
    intros (ints & Hints & ->)%IH. exists ((ix, iy) :: ints). split.
    + by constructor.
    + unfold flatten. simpl. by rewrite <- !app_assoc.
Qed.

Lemma fill_number_list_raise blocks number_list e :
  fill_number_list number_list blocks = Raise e →
  e = ValueError ∨ e = OverflowError.
Proof.
  revert number_list. induction blocks as [|[x y] blocks IH]; intros number_list; simpl; [done|].
  destruct x, y; simpl; eauto; intros [= <-]; eauto.
Qed.

Lemma coerced_of_coordinate (cs : list Coordinate) :
  Forall2 coerced (of_coordinate <$> cs) cs.
Proof. induction cs as [|[x y] cs IH]; constructor; [done|apply IH]. Qed.

Lemma length_flatten (cs : list Coordinate) : length (flatten cs) = (2 * length cs)%nat.
Proof.
  unfold flatten. induction cs as [|c cs IH]; [done|].
  rewrite bind_cons, length_app, IH. simpl. lia.
Qed.

Lemma string_forall_append P s t :
  string_forall P (String.append s t) = string_forall P s && string_forall P t.
Proof. induction s as [|c s IH]; simpl; [done|]. by rewrite IH, andb_assoc. Qed.

Lemma string_of_uint_alphabet d :
  string_forall in_alphabet (NilEmpty.string_of_uint d) = true.
Proof. induction d; simpl; auto. Qed.

Lemma py_str_alphabet z : string_forall in_alphabet (py_str z) = true.
Proof.
  unfold py_str. destruct (Z.to_int z) as [d|d]; simpl.
  - destruct d; try apply (string_of_uint_alphabet (_ _)); done.
  - destruct d; try apply (string_of_uint_alphabet (_ _)); done.
Qed.

Lemma join_alphabet items :
  Forall (λ s, string_forall in_alphabet s = true) items →
  string_forall in_alphabet (join "," items) = true.
Proof.
  induction 1 as [|s items Hs _ IH]; [done|].
  destruct items as [|t items]; [done|].
  change (join "," (s :: t :: items))
    with (String.append s (String.append "," (join "," (t :: items)))).
  rewrite !string_forall_append, Hs, IH. done.
Qed.

Lemma json_dumps_alphabet number_list :
  string_forall in_alphabet (json_dumps number_list) = true.
Proof.
  unfold json_dumps. rewrite !string_forall_append, join_alphabet; [done|].
  apply Forall_fmap, Forall_forall. intros z _. apply py_str_alphabet.
Qed.

Lemma alphabet_not_whitespace c : in_alphabet c = true → is_whitespace c = false.
Proof. destruct c as [[] [] [] [] [] [] [] []]; vm_compute; congruence. Qed.

(** ** The payload is read back only as what was written *)

Lemma string_app_assoc (s t u : string) :
  String.append (String.append s t) u = String.append s (String.append t u).
Proof.
  induction s as [|c s IH]; [done|].
  change (String c (String.append (String.append s t) u)
          = String c (String.append s (String.append t u))).
  by rewrite IH.
Qed.

Lemma string_of_uint_plain d :
  string_forall (λ c, negb (is_delimiter c)) (NilEmpty.string_of_uint d) = true.
Proof. induction d; simpl; auto. Qed.

Lemma py_str_plain z : string_forall (λ c, negb (is_delimiter c)) (py_str z) = true.
Proof.
  unfold py_str. destruct (Z.to_int z) as [d|d]; simpl.
  - destruct d; try apply (string_of_uint_plain (_ _)); done.
  - destruct d; try apply (string_of_uint_plain (_ _)); done.
Qed.

Lemma py_str_nonempty z : py_str z ≠ EmptyString.
Proof.
  unfold py_str. destruct z as [|p|p]; simpl; [done| |done].
  pose proof (DecimalPos.Unsigned.to_uint_nonnil p) as H.
  unfold NilZero.string_of_uint. by destruct (Pos.to_uint p).
Qed.

Lemma py_str_inj a b : py_str a = py_str b → a = b.
Proof.
  unfold py_str. intros H.
  assert (∀ z, NilZero.int_of_string (NilZero.string_of_int (Z.to_int z))
               = Some (Z.to_int z)) as Hback.
  { intros z. apply NilZero.isi; destruct z as [|p|p]; simpl; try done;
      intros [= Hp]; by apply (DecimalPos.Unsigned.to_uint_nonnil p). }
  apply (f_equal NilZero.int_of_string) in H. rewrite !Hback in H.
  injection H as H. apply (f_equal Z.of_int) in H.
  by rewrite !DecimalZ.of_to in H.
Qed.

(** Two plain strings, each followed by a delimiter, are equal only piece
    by piece. *)
Lemma append_delimited a b c1 t1 c2 t2 :
  string_forall (λ c, negb (is_delimiter c)) a = true →
  string_forall (λ c, negb (is_delimiter c)) b = true →
  is_delimiter c1 = true → is_delimiter c2 = true →
  String.append a (String c1 t1) = String.append b (String c2 t2) →
  a = b ∧ String c1 t1 = String c2 t2.
Proof.
  revert b. induction a as [|x a IH]; intros [|y b]; simpl; intros Ha Hb H1 H2 H.
  - done.
  - injection H as -> _. apply andb_true_iff in Hb as [Hy _]. by rewrite H1 in Hy.
  - injection H as -> _. apply andb_true_iff in Ha as [Hx _]. by rewrite H2 in Hx.
  - injection H as -> H.
    apply andb_true_iff in Ha as [_ Ha]. apply andb_true_iff in Hb as [_ Hb].
    destruct (IH b Ha Hb H1 H2 H) as [-> ->]. done.
Qed.

Lemma join_cons_closed item rest :
  String.append (join "," (item :: rest)) "]"
  = String.append item
      (match rest with
       | [] => "]"
       | _ => String "," (String.append (join "," rest) "]")
       end).
Proof.
  destruct rest as [|next rest]; [done|].
  change (join "," (item :: next :: rest))
    with (String.append item (String.append "," (join "," (next :: rest)))).
  by rewrite string_app_assoc.
Qed.

Lemma join_closed_inj (l1 l2 : list Z) :
  String.append (join "," (py_str <$> l1)) "]"
  = String.append (join "," (py_str <$> l2)) "]" →
  l1 = l2.
Proof.
  revert l2. induction l1 as [|a l1 IH]; intros [|b l2].
  - done.
  - rewrite fmap_cons, join_cons_closed. simpl. intros H. exfalso.
    pose proof (py_str_plain b) as Hb. pose proof (py_str_nonempty b) as Hn.
    destruct (py_str b) as [|c rest]; [done|].
    simpl in H, Hb. injection H as <- _. done.
  - rewrite fmap_cons, join_cons_closed. simpl. intros H. exfalso.
    pose proof (py_str_plain a) as Ha. pose proof (py_str_nonempty a) as Hn.
    destruct (py_str a) as [|c rest]; [done|].
    simpl in H, Ha. injection H as -> _. done.
  - rewrite !fmap_cons, !join_cons_closed. intros H.
    assert (py_str a = py_str b
            ∧ match py_str <$> l1 with
              | [] => "]"%string
              | _ => String "," (String.append (join "," (py_str <$> l1)) "]")
              end
              = match py_str <$> l2 with
                | [] => "]"%string
                | _ => String "," (String.append (join "," (py_str <$> l2)) "]")
                end) as [Hab Htail].
    { destruct l1, l2; simpl in *;
        by apply append_delimited; try apply py_str_plain. }
    apply py_str_inj in Hab as ->. f_equal.
    destruct l1 as [|a1 l1], l2 as [|b1 l2]; try done.
    apply IH. by injection Htail.
Qed.

Lemma json_dumps_inj l1 l2 : json_dumps l1 = json_dumps l2 → l1 = l2.
Proof.
  unfold json_dumps. simpl. intros [= H]. by apply join_closed_inj.
Qed.

Lemma flatten_inj (cs1 cs2 : list Coordinate) : flatten cs1 = flatten cs2 → cs1 = cs2.
Proof.
  unfold flatten. revert cs2.
  induction cs1 as [|[x1 y1] cs1 IH]; intros [|[x2 y2] cs2]; try done.
  rewrite !bind_cons. simpl. intros [= -> -> H]. f_equal. by apply IH.
Qed.

(** ** The payload, read *)

(** The value of a digit written out in the text of the goal. *)
Ltac digit_of_literal :=
  match goal with
  | |- context [digit_value ?c] =>
      let v := eval vm_compute in (digit_value c) in
      change (digit_value c) with v; cbv iota
  end.

Lemma read_digits_from acc d :
  read_digits (Z.pos acc) (NilEmpty.string_of_uint d)
  = Some (Z.pos (Pos.of_uint_acc d acc)).
Proof.
  revert acc. induction d; intros acc; [done|..];
    cbn [NilEmpty.string_of_uint read_digits Pos.of_uint_acc];
    digit_of_literal; rewrite <- IHd; f_equal; lia.
Qed.

Lemma read_digits_zero d :
  read_digits 0 (NilEmpty.string_of_uint d) = Some (Z.of_N (Pos.of_uint d)).
Proof.
  induction d; [done|exact IHd|..];
    cbn [NilEmpty.string_of_uint read_digits Pos.of_uint];
    digit_of_literal; apply read_digits_from.
Qed.

(** The decimal text of a positive number starts with a digit other than
    zero. *)
Lemma to_uint_head p :
  ∃ c rest,
    NilEmpty.string_of_uint (Pos.to_uint p) = String c rest
    ∧ Ascii.eqb c "0" = false ∧ Ascii.eqb c "-" = false
    ∧ is_delimiter c = false.
Proof.
  pose proof (DecimalPos.Unsigned.to_of (Pos.to_uint p)) as Hnorm.
  rewrite DecimalPos.Unsigned.of_to in Hnorm. simpl in Hnorm.
  pose proof (DecimalPos.Unsigned.to_uint_nonnil p) as Hnil.
  pose proof (DecimalPos.Unsigned.to_uint_nonzero p) as Hzero.
  destruct (Pos.to_uint p) as [|d|d|d|d|d|d|d|d|d|d] eqn:Hd;
    [done| |simpl; eauto 10..].
  exfalso. unfold Decimal.unorm in Hnorm. rewrite DecimalFacts.nzhead_D0 in Hnorm.
  pose proof (DecimalFacts.nzhead_nonzero d) as Hhead.
  destruct (Decimal.nzhead d) eqn:Hn; try done.
  by apply (Hhead u).
Qed.

Lemma read_natural_py_str p : read_natural (py_str (Z.pos p)) = Some (Z.pos p).
Proof.
  destruct (to_uint_head p) as (c & rest & Htext & Hzero & _ & _).
  pose proof (DecimalPos.Unsigned.to_uint_nonnil p) as Hnil.
  unfold py_str. cbn [Z.to_int NilZero.string_of_int]. unfold NilZero.string_of_uint.
  replace (match Pos.to_uint p with Decimal.Nil => "0"%string | _ => NilEmpty.string_of_uint (Pos.to_uint p) end)
    with (NilEmpty.string_of_uint (Pos.to_uint p)) by (by destruct (Pos.to_uint p)).
  unfold read_natural. rewrite Htext, Hzero, <- Htext.
  by rewrite read_digits_zero, DecimalPos.Unsigned.of_to.
Qed.

Lemma py_str_neg p : py_str (Z.neg p) = String "-" (py_str (Z.pos p)).
Proof. done. Qed.

Lemma py_str_pos p : py_str (Z.pos p) = NilEmpty.string_of_uint (Pos.to_uint p).
Proof.
  pose proof (DecimalPos.Unsigned.to_uint_nonnil p) as Hnil.
  unfold py_str. cbn [Z.to_int NilZero.string_of_int]. unfold NilZero.string_of_uint.
  by destruct (Pos.to_uint p).
Qed.

(** Reading what [str] wrote gives the number back. *)
Lemma read_integer_py_str z : read_integer (py_str z) = Some z.
Proof.
  destruct z as [|p|p]; [done| |].
  - pose proof (read_natural_py_str p) as H.
    destruct (to_uint_head p) as (c & rest & Htext & _ & Hminus & _).
    rewrite py_str_pos in *. rewrite Htext in *.
    unfold read_integer. by rewrite Hminus.
  - rewrite py_str_neg. unfold read_integer.
    rewrite Ascii.eqb_refl, read_natural_py_str. done.
Qed.

Lemma digit_char c k (d : Decimal.uint) :
  digit_value c = Some k → ∃ d', uint_of_char c (Some d) = Some d'.
Proof.
  destruct c as [[] [] [] [] [] [] [] []]; vm_compute; intros H;
    try discriminate H; eauto.
Qed.

Lemma read_digits_text value text n :
  read_digits value text = Some n → ∃ d, NilEmpty.string_of_uint d = text.
Proof.
  revert value. induction text as [|c text IH]; intros value; simpl.
  - intros _. by exists Decimal.Nil.
  - destruct (digit_value c) as [k|] eqn:Hk; [|done].
    intros [d Hd]%IH.
    destruct (digit_char c k d Hk) as [d' Hd'].
    exists d'. apply NilEmpty.sus. simpl.
    by rewrite <- Hd, NilEmpty.usu.
Qed.

(** A text read as a natural number is the text [str] writes for it. *)
Lemma read_natural_inv text n : read_natural text = Some n → 0 ≤ n ∧ text = py_str n.
Proof.
  destruct text as [|c rest]; [done|]. unfold read_natural.
  destruct (Ascii.eqb c "0") eqn:Hc.
  - apply Ascii.eqb_eq in Hc as ->. destruct rest; [|done]. by intros [= <-].
  - intros H. destruct (read_digits_text _ _ _ H) as [d Hd].
    rewrite <- Hd, read_digits_zero in H. injection H as <-.
    assert (Decimal.unorm d = d ∧ ∃ p, Pos.of_uint d = N.pos p) as [Hnorm [p Hp]].
    { destruct d; simpl in Hd; try done; try (split; [done|eauto]).
      injection Hd as <- _. done. }
    pose proof (DecimalPos.Unsigned.to_of d) as Hto.
    rewrite Hp, Hnorm in Hto. simpl in Hto.
    rewrite Hp. simpl. split; [done|].
    by rewrite py_str_pos, Hto.
Qed.

Lemma read_integer_inv text z : read_integer text = Some z → text = py_str z.
Proof.
  destruct text as [|c rest]; [done|]. unfold read_integer.
  destruct (Ascii.eqb c "-") eqn:Hc.
  - apply Ascii.eqb_eq in Hc as ->.
    destruct (read_natural rest) as [n|] eqn:Hn; [|done].
    apply read_natural_inv in Hn as [Hpos ->].
    destruct n as [|p|p]; [done| |lia].
    intros [= <-]. done.
  - intros H. by apply read_natural_inv in H as [_ ->].
Qed.

Lemma is_delimiter_false c :
  is_delimiter c = false → Ascii.eqb c "]" = false ∧ Ascii.eqb c "," = false.
Proof. unfold is_delimiter. intros [-> ->]%orb_false_iff. done. Qed.

(** The characters of an item are gathered up to the next delimiter. *)
Lemma read_items_plain token item text :
  string_forall (λ c, negb (is_delimiter c)) item = true →
  read_items token (String.append item text)
  = read_items (String.append token item) text.
Proof.
  revert token. induction item as [|c item IH]; intros token Hplain.
  - simpl. f_equal. clear. induction token as [|c token IH]; [done|].
    change (String c token = String c (String.append token "")). by rewrite <- IH.
  - simpl in Hplain. apply andb_true_iff in Hplain as [Hc Hitem].
    apply negb_true_iff, is_delimiter_false in Hc as [Hclose Hcomma].
    change (String.append (String c item) text) with (String c (String.append item text)).
    cbn [read_items]. rewrite Hclose, Hcomma, IH by done.
    f_equal. by rewrite string_app_assoc.
Qed.

Lemma read_items_join z (rest : list Z) :
  read_items "" (String.append (join "," (py_str <$> z :: rest)) "]") = Some (z :: rest).
Proof.
  revert z. induction rest as [|next rest IH]; intros z;
    rewrite fmap_cons, join_cons_closed, read_items_plain by apply py_str_plain;
    change (String.append "" (py_str z)) with (py_str z).
  - rewrite fmap_nil. cbn [read_items]. rewrite Ascii.eqb_refl.
    by rewrite read_integer_py_str.
  - rewrite fmap_cons. cbv iota. cbn [read_items].
    change (Ascii.eqb "," "]") with false. rewrite Ascii.eqb_refl. cbv iota.
    by rewrite read_integer_py_str, <- fmap_cons, IH.
Qed.

(** Reading the array [json.dumps] wrote gives the numbers back. *)
Lemma read_array_json_dumps number_list :
  read_array (json_dumps number_list) = Some number_list.
Proof.
  destruct number_list as [|z rest]; [done|].
  unfold json_dumps.
  change (map py_str (z :: rest)) with (py_str <$> z :: rest).
  change (String.append "[" ?x) with (String "[" x).
  cbn [read_array]. rewrite Ascii.eqb_refl.
  assert (String.eqb (String.append (join "," (py_str <$> z :: rest)) "]") "]" = false)
    as ->.
  { rewrite fmap_cons, join_cons_closed.
    pose proof (py_str_plain z) as Hplain. pose proof (py_str_nonempty z) as Hne.
    destruct (py_str z) as [|c text]; [done|].
    simpl in Hplain. apply andb_true_iff in Hplain as [Hc _].
    apply negb_true_iff, is_delimiter_false in Hc as [Hclose _].
    simpl. by rewrite Hclose. }
  apply read_items_join.
Qed.

Lemma read_items_inv token text items :
  read_items token text = Some items →
  ∃ z rest,
    items = z :: rest
    ∧ String.append token text = String.append (join "," (py_str <$> z :: rest)) "]".
Proof.
  revert token items. induction text as [|c text IH]; intros token items; [done|].
  cbn [read_items].
  destruct (Ascii.eqb c "]") eqn:Hclose.
  - apply Ascii.eqb_eq in Hclose as ->.
    destruct text; [|done].
    destruct (read_integer token) as [z|] eqn:Hz; [|done].
    intros [= <-]. exists z, []. split; [done|].
    by apply read_integer_inv in Hz as ->.
  - destruct (Ascii.eqb c ",") eqn:Hcomma.
    + apply Ascii.eqb_eq in Hcomma as ->.
      destruct (read_integer token) as [z|] eqn:Hz; [|done].
      destruct (read_items "" text) as [tail|] eqn:Htail; [|done].
      intros [= <-].
      apply IH in Htail as (z' & rest & -> & Htext).
      change (String.append "" text) with text in Htext.
      exists z, (z' :: rest). split; [done|].
      apply read_integer_inv in Hz as ->.
      rewrite (fmap_cons _ z), join_cons_closed. rewrite fmap_cons. cbv iota.
      by rewrite <- fmap_cons, <- Htext.
    + intros (z & rest & -> & Htext)%IH. exists z, rest. split; [done|].
      rewrite <- Htext. by rewrite string_app_assoc.
Qed.

(** A text the reader accepts is the text [json.dumps] writes for what was
    read. *)
Lemma read_array_inv text number_list :
  read_array text = Some number_list → text = json_dumps number_list.
Proof.
  destruct text as [|c text]; [done|]. unfold read_array.
  destruct (Ascii.eqb c "[") eqn:Hopen; [|done].
  apply Ascii.eqb_eq in Hopen as ->.
  destruct (String.eqb text "]") eqn:Hclose.
  - apply String.eqb_eq in Hclose as ->. by intros [= <-].
  - intros (z & rest & -> & Htext)%read_items_inv.
    change (String.append "" text) with text in Htext.
    unfold json_dumps. change (map py_str (z :: rest)) with (py_str <$> z :: rest).
    by rewrite <- Htext.
Qed.

Lemma read_array_iff text number_list :
  read_array text = Some number_list ↔ text = json_dumps number_list.
Proof. split; [apply read_array_inv|intros ->; apply read_array_json_dumps]. Qed.

(** ** Running the module *)

Section Runs.

Variable BLOCK_SIZE : Z.
Variable Image_open : string → answer Image.
Variable create_block_grid : Z → Z → Z → answer (list Coordinate).
Variable arrange_blocks : Image → Z → list pair → answer Image.
Variable lsb_hide : Image → string → answer Image.

Abbreviation resolve := (resolve Image_open).
Abbreviation image_behind := (image_behind Image_open).
Abbreviation encode_blocks :=
  (encode_blocks BLOCK_SIZE Image_open create_block_grid arrange_blocks).
Abbreviation add_data_image := (add_data_image Image_open lsb_hide).
Abbreviation encode :=
  (encode BLOCK_SIZE Image_open create_block_grid arrange_blocks lsb_hide).

Lemma resolve_run image w :
  resolve image w =
    (match image_behind image with
     | Fine i => Return i
     | Failed message => Raise (LibraryError PIL message)
     end, after_open image w).
Proof.
  destruct image as [p|i]; simpl; [|done].
  unfold mbind, M_bind, bind, record_call, from_library. simpl.
  by destruct (Image_open p).
Qed.

Lemma format_gate_run image w :
  format_gate image w =
    (if format_allowed (format image) then Return tt else Raise (ImageFormatError image), w).
Proof. unfold format_gate. by destruct (format_allowed (format image)). Qed.

Lemma bind_run {A B} (m : M A) (k : A → M B) w :
  (m ≫= k) w =
    match m w with
    | (Return a, w') => k a w'
    | (Raise e, w') => (Raise e, w')
    end.
Proof. done. Qed.

Lemma np_random_shuffle_run l x w :
  heap w !! l = Some x →
  np_random_shuffle l w =
    (Return tt,
     {| heap := <[l := fst (shuffle x (random w))]> (heap w);
        random := snd (shuffle x (random w));
        calls := Call_shuffle l :: calls w |}).
Proof.
  intros H. unfold np_random_shuffle, read_list, shuffle_in_place.
  repeat (rewrite bind_run; simpl). rewrite H. simpl.
  by destruct (shuffle x (random w)).
Qed.

Lemma call_arrange_blocks_run img s l items w :
  heap w !! l = Some items →
  call_arrange_blocks arrange_blocks img s l w =
    (match arrange_blocks img s items with
     | Fine v => Return v
     | Failed message => Raise (LibraryError shared message)
     end,
     {| heap := heap w; random := random w;
        calls := Call_arrange_blocks img s l :: calls w |}).
Proof.
  intros H. unfold call_arrange_blocks, read_list.
  repeat (rewrite bind_run; simpl). rewrite H.
  by destruct (arrange_blocks img s items).
Qed.

Lemma list_insert_run l index item items w :
  heap w !! l = Some items →
  list_insert l index item w =
    (Return tt, set_heap (<[l := take index items ++ item :: drop index items]> (heap w)) w).
Proof.
  intros H. unfold list_insert, read_list. rewrite bind_run. by rewrite H.
Qed.

Lemma call_hide_run img message w :
  call_hide lsb_hide img message w =
    (match lsb_hide img message with
     | Fine v => Return v
     | Failed m => Raise (LibraryError stegano m)
     end,
     {| heap := heap w; random := random w; calls := Call_hide img message :: calls w |}).
Proof.
  unfold call_hide. rewrite bind_run. simpl.
  by destruct (lsb_hide img message).
Qed.

(** [encode_blocks], step by step: every way it can end, with the world it
    leaves behind. *)
Lemma encode_blocks_cases image block_size w :
  let s := default BLOCK_SIZE block_size in
  let w1 := after_open image w in
  let blocks := fresh (dom (heap w1)) in
  encode_blocks image block_size w =
    match image_behind image with
    | Failed message => (Raise (LibraryError PIL message), w1)
    | Fine img =>
        if format_allowed (format img) then
          let grid_call := Call_create_block_grid (fst (size img)) (snd (size img)) s in
          match create_block_grid (fst (size img)) (snd (size img)) s with
          | Failed message =>
              (Raise (LibraryError shared message),
               {| heap := heap w1; random := random w1; calls := grid_call :: calls w1 |})
          | Fine grid =>
              let permutation := fst (shuffle grid (random w1)) in
              let trace := Call_arrange_blocks img s blocks :: Call_shuffle blocks
                           :: grid_call :: calls w1 in
              match arrange_blocks img s (of_coordinate <$> permutation) with
              | Failed message =>
                  (Raise (LibraryError shared message),
                   {| heap := <[blocks := of_coordinate <$> permutation]> (heap w1);
                      random := snd (shuffle grid (random w1));
                      calls := trace |})
              | Fine enc =>
                  (Return (blocks, enc),
                   {| heap := <[blocks := of_coordinate (size img) :: (PyInt s, PyInt s)
                                            :: (of_coordinate <$> permutation)]> (heap w1);
                      random := snd (shuffle grid (random w1));
                      calls := trace |})
              end
          end
        else (Raise (ImageFormatError img), w1)
    end.
Proof.
  intros s w1 blocks.
  unfold encode_blocks. fold s.
  rewrite bind_run, resolve_run. fold w1.
  destruct (image_behind image) as [img|message]; [|done].
  rewrite bind_run, format_gate_run.
  destruct (format_allowed (format img)); [|done].
  unfold call_create_block_grid.
  rewrite !bind_run. simpl record_call. cbv iota beta.
  destruct (create_block_grid _ _ s) as [grid|message]; [|done].
  simpl. fold blocks.
  rewrite bind_run.
  rewrite (np_random_shuffle_run _ (of_coordinate <$> grid)) by apply lookup_insert_eq.
  simpl. rewrite shuffle_fmap. simpl.
  rewrite bind_run.
  rewrite (call_arrange_blocks_run _ _ _ (of_coordinate <$> fst (shuffle grid (random w1))))
    by apply lookup_insert_eq.
  destruct (arrange_blocks img s _) as [enc|message]; simpl.
  - rewrite bind_run.
    erewrite list_insert_run by apply lookup_insert_eq.
    rewrite bind_run.
    erewrite list_insert_run by apply lookup_insert_eq.
    unfold set_heap. simpl. by rewrite !insert_insert_eq.
  - by rewrite !insert_insert_eq.
Qed.

Lemma encode_blocks_run image block_size w img grid enc :
  let s := default BLOCK_SIZE block_size in
  let w1 := after_open image w in
  let blocks := fresh (dom (heap w1)) in
  let permutation := fst (shuffle grid (random w1)) in
  image_behind image = Fine img →
  format_allowed (format img) = true →
  create_block_grid (fst (size img)) (snd (size img)) s = Fine grid →
  arrange_blocks img s (of_coordinate <$> permutation) = Fine enc →
  encode_blocks image block_size w =
    (Return (blocks, enc),
     {| heap := <[blocks := of_coordinate (size img) :: (PyInt s, PyInt s)
                              :: (of_coordinate <$> permutation)]> (heap w1);
        random := snd (shuffle grid (random w1));
        calls := Call_arrange_blocks img s blocks :: Call_shuffle blocks
                 :: Call_create_block_grid (fst (size img)) (snd (size img)) s
                 :: calls w1 |}).
Proof.
  intros s w1 blocks permutation Himg Hfmt Hgrid Harr.
  rewrite encode_blocks_cases. fold s w1 blocks.
  rewrite Himg, Hfmt. cbv zeta. rewrite Hgrid. fold permutation. by rewrite Harr.
Qed.

(** [encode_blocks] returns in no other way. *)
Lemma encode_blocks_inv image block_size w l enc w' :
  encode_blocks image block_size w = (Return (l, enc), w') →
  ∃ img grid,
    image_behind image = Fine img
    ∧ format_allowed (format img) = true
    ∧ create_block_grid (fst (size img)) (snd (size img)) (default BLOCK_SIZE block_size)
      = Fine grid
    ∧ arrange_blocks img (default BLOCK_SIZE block_size)
        (of_coordinate <$> fst (shuffle grid (random (after_open image w)))) = Fine enc.
Proof.
  rewrite encode_blocks_cases.
  destruct (image_behind image) as [img|]; [|done].
  destruct (format_allowed (format img)) eqn:Hfmt; [|done].
  cbv zeta.
  destruct (create_block_grid _ _ _) as [grid|] eqn:Hgrid; [|done].
  destruct (arrange_blocks _ _ _) as [enc'|] eqn:Harr; [|done].
  intros [= _ <- _]. by exists img, grid.
Qed.

(** [add_data_image], step by step. *)
Lemma add_data_image_cases image blocks w :
  let w1 := after_open image w in
  add_data_image image blocks w =
    match image_behind image with
    | Failed message => (Raise (LibraryError PIL message), w1)
    | Fine img =>
        if format_allowed (format img) then
          match heap w !! blocks with
          | None => (Raise TypeError, w1)
          | Some items =>
              match fill_number_list [] items with
              | Raise e => (Raise e, w1)
              | Return number_list => call_hide lsb_hide img (json_dumps number_list) w1
              end
          end
        else (Raise (ImageFormatError img), w1)
    end.
Proof.
  intros w1. unfold add_data_image.
  rewrite bind_run, resolve_run. fold w1.
  destruct (image_behind image) as [img|message]; [|done].
  rewrite bind_run, format_gate_run.
  destruct (format_allowed (format img)); [|done].
  rewrite bind_run. unfold read_list.
  replace (heap w1) with (heap w) by (by destruct image).
  destruct (heap w !! blocks) as [items|]; [|done].
  rewrite bind_run. unfold lift.
  by destruct (fill_number_list [] items).
Qed.

Lemma string_forall_impl (P Q : ascii → bool) s :
  (∀ c, P c = true → Q c = true) →
  string_forall P s = true → string_forall Q s = true.
Proof.
  intros HPQ. induction s as [|c s IH]; simpl; [done|].
  intros [Hc Hs]%andb_true_iff. by rewrite (HPQ c Hc), IH.
Qed.

Lemma json_dumps_no_whitespace number_list :
  string_forall (λ c, negb (is_whitespace c)) (json_dumps number_list) = true.
Proof.
  apply (string_forall_impl in_alphabet); [|apply json_dumps_alphabet].
  intros c Hc. by rewrite (alphabet_not_whitespace c Hc).
Qed.

(** The list [encode_blocks] returns goes through the loop of
    [add_data_image] without an exception. *)
Lemma fill_number_list_metadata (image_size : Coordinate) (s : Z) (permutation : list Coordinate) :
  fill_number_list []
    (of_coordinate image_size :: (PyInt s, PyInt s) :: (of_coordinate <$> permutation))
  = Return (fst image_size :: snd image_size :: s :: s :: flatten permutation).
Proof.
  rewrite (fill_number_list_coerced _ (image_size :: (s, s) :: permutation)); [done|].
  repeat constructor. apply coerced_of_coordinate.
Qed.

Lemma encode_run image block_size w img grid enc :
  let s := default BLOCK_SIZE block_size in
  let w1 := after_open image w in
  let blocks := fresh (dom (heap w1)) in
  let permutation := fst (shuffle grid (random w1)) in
  let payload :=
    json_dumps (fst (size img) :: snd (size img) :: s :: s :: flatten permutation) in
  image_behind image = Fine img →
  format_allowed (format img) = true →
  create_block_grid (fst (size img)) (snd (size img)) s = Fine grid →
  arrange_blocks img s (of_coordinate <$> permutation) = Fine enc →
  format_allowed (format enc) = true →
  ∃ w2,
    encode_blocks image block_size w = (Return (blocks, enc), w2)
    ∧ add_data_image (Img enc) blocks w2 = call_hide lsb_hide enc payload w2
    ∧ encode image block_size w = call_hide lsb_hide enc payload w2.
Proof.
  intros s w1 blocks permutation payload Himg Hfmt Hgrid Harr Henc.
  pose proof (encode_blocks_run image block_size w img grid enc Himg Hfmt Hgrid Harr) as Hrun.
  fold s w1 blocks permutation in Hrun.
  eexists. split; [exact Hrun|].
  assert (∀ w2 : World,
    heap w2 !! blocks = Some (of_coordinate (size img) :: (PyInt s, PyInt s)
                              :: (of_coordinate <$> permutation)) →
    add_data_image (Img enc) blocks w2 = call_hide lsb_hide enc payload w2) as Hadd.
  { intros w2 Hw2. rewrite add_data_image_cases. simpl.
    by rewrite Henc, Hw2, fill_number_list_metadata. }
  split.
  - apply Hadd. apply lookup_insert_eq.
  - unfold encode. rewrite bind_run, Hrun. simpl.
    apply Hadd. apply lookup_insert_eq.
Qed.

(** ** The claims *)

(** C1.  The text [encode] hands to the covert-channel embedding, the
    [json_data] that [add_data_image] builds from the list [encode_blocks]
    produced, is exactly the JSON array [[W,H,S,S,x0,y0,...,xn,yn]]: the
    original image size, the block size twice, and the permutation's
    coordinates flattened in order; it contains no whitespace.  The reader
    of the wire format, which evaluates brackets, commas and digits itself,
    reads these numbers from the text, and reads them from no other
    text. *)
Theorem encode_payload_wire_format image block_size w img grid enc :
  let s := default BLOCK_SIZE block_size in
  let permutation := fst (shuffle grid (random (after_open image w))) in
  let payload :=
    json_dumps (fst (size img) :: snd (size img) :: s :: s :: flatten permutation) in
  image_behind image = Fine img →
  format_allowed (format img) = true →
  create_block_grid (fst (size img)) (snd (size img)) s = Fine grid →
  arrange_blocks img s (of_coordinate <$> permutation) = Fine enc →
  format_allowed (format enc) = true →
  ∃ blocks w2,
    encode_blocks image block_size w = (Return (blocks, enc), w2)
    ∧ add_data_image (Img enc) blocks w2 = call_hide lsb_hide enc payload w2
    ∧ encode image block_size w =
        (match lsb_hide enc payload with
         | Fine hidden => Return hidden
         | Failed message => Raise (LibraryError stegano message)
         end,
         {| heap := heap w2; random := random w2;
            calls := Call_hide enc payload :: calls w2 |})
    ∧ string_forall (λ c, negb (is_whitespace c)) payload = true
    ∧ read_array payload
      = Some (fst (size img) :: snd (size img) :: s :: s :: flatten permutation)
    ∧ (∀ text,
         read_array text
         = Some (fst (size img) :: snd (size img) :: s :: s :: flatten permutation)
         ↔ text = payload).
Proof.
  intros s permutation payload Himg Hfmt Hgrid Harr Henc.
  destruct (encode_run image block_size w img grid enc Himg Hfmt Hgrid Harr Henc)
    as (w2 & Hblocks & Hadd & Hencode).
  eexists _, w2. split; [exact Hblocks|]. split; [exact Hadd|]. split; [|split; [|split]].
  - rewrite Hencode. apply call_hide_run.
  - apply json_dumps_no_whitespace.
  - apply read_array_json_dumps.
  - intros text. apply read_array_iff.
Qed.

(** C2.  The list [encode_blocks] returns has the image's (width, height)
    pair as its first element and the (block_size, block_size) pair as its
    second, followed by the shuffled grid coordinates. *)
Theorem encode_blocks_sentinels image block_size w img grid enc :
  let s := default BLOCK_SIZE block_size in
  let permutation := fst (shuffle grid (random (after_open image w))) in
  image_behind image = Fine img →
  format_allowed (format img) = true →
  create_block_grid (fst (size img)) (snd (size img)) s = Fine grid →
  arrange_blocks img s (of_coordinate <$> permutation) = Fine enc →
  ∃ blocks w2,
    encode_blocks image block_size w = (Return (blocks, enc), w2)
    ∧ heap w2 !! blocks =
        Some ((PyInt (fst (size img)), PyInt (snd (size img))) :: (PyInt s, PyInt s)
              :: (of_coordinate <$> permutation))
    ∧ permutation ≡ₚ grid.
Proof.
  intros s permutation Himg Hfmt Hgrid Harr.
  eexists _, _. split; [by apply (encode_blocks_run image block_size w img grid enc)|].
  split; [apply lookup_insert_eq|apply shuffle_Permutation].
Qed.

Lemma format_allowed_true f :
  format_allowed f = true ↔ f = None ∨ f = Some "PNG"%string.
Proof.
  destruct f as [name|]; simpl.
  - rewrite String.eqb_eq. split; [intros ->; by right|by intros [|[= ->]]].
  - split; [by left|done].
Qed.

Lemma format_allowed_false f :
  format_allowed f = false ↔ f ≠ Some "PNG"%string ∧ f ≠ None.
Proof.
  rewrite <- not_true_iff_false, format_allowed_true. split.
  - intros H. split; intros ->; apply H; auto.
  - intros [H1 H2] [|]; done.
Qed.

Lemma after_open_heap image w : heap (after_open image w) = heap w.
Proof. by destruct image. Qed.

Lemma after_open_random image w : random (after_open image w) = random w.
Proof. by destruct image. Qed.

Lemma after_open_calls image w :
  calls (after_open image w) = calls w
  ∨ ∃ p, image = Path p ∧ calls (after_open image w) = Call_open p :: calls w.
Proof. destruct image as [p|i]; [right; by exists p|by left]. Qed.

(** C3.  [add_data_image] and [encode_blocks] raise [ImageFormatError] if
    and only if the declared format of the image is neither ["PNG"] nor
    [None]; a ["PNG"] or [None] image is never rejected by the gate. *)
Theorem format_gate_iff image blocks block_size w img :
  image_behind image = Fine img →
  ((∃ rejected w', add_data_image image blocks w = (Raise (ImageFormatError rejected), w'))
   ↔ format img ≠ Some "PNG"%string ∧ format img ≠ None)
  ∧ ((∃ rejected w',
        encode_blocks image block_size w = (Raise (ImageFormatError rejected), w'))
     ↔ format img ≠ Some "PNG"%string ∧ format img ≠ None)
  ∧ (format img ≠ Some "PNG"%string ∧ format img ≠ None →
     add_data_image image blocks w = (Raise (ImageFormatError img), after_open image w)
     ∧ encode_blocks image block_size w
       = (Raise (ImageFormatError img), after_open image w)).
Proof.
  intros Himg. rewrite <- format_allowed_false.
  rewrite add_data_image_cases, encode_blocks_cases, Himg.
  destruct (format_allowed (format img)) eqn:Hfmt.
  - split; [|split]; [| |done].
    + split; [|done]. intros (rejected & w' & H). exfalso.
      destruct (heap w !! blocks) as [items|]; [|done].
      destruct (fill_number_list [] items) as [number_list|e] eqn:Hfill.
      * rewrite call_hide_run in H. by destruct (lsb_hide _ _).
      * apply fill_number_list_raise in Hfill as [->| ->]; done.
    + split; [|done]. intros (rejected & w' & H). exfalso.
      cbv zeta in H.
      destruct (create_block_grid _ _ _); [|done].
      by destruct (arrange_blocks _ _ _).
  - split; [|split]; [split; [done|]; eauto..|done].
Qed.

(** C4.  On an image whose declared format is not supported, [encode]
    raises [ImageFormatError] before any block processing: the store holds
    no grid, the generator has not moved, and no call to the grid builder,
    the shuffle, the arranger or the embedding has been made; the only call
    that can precede the error is the opening of a path. *)
Theorem encode_rejects_before_processing image block_size w img :
  image_behind image = Fine img →
  format_allowed (format img) = false →
  encode image block_size w = (Raise (ImageFormatError img), after_open image w)
  ∧ encode_blocks image block_size w = (Raise (ImageFormatError img), after_open image w)
  ∧ heap (after_open image w) = heap w
  ∧ random (after_open image w) = random w
  ∧ (calls (after_open image w) = calls w
     ∨ ∃ p, image = Path p ∧ calls (after_open image w) = Call_open p :: calls w).
Proof.
  intros Himg Hfmt.
  assert (encode_blocks image block_size w
          = (Raise (ImageFormatError img), after_open image w)) as Hblocks.
  { by rewrite encode_blocks_cases, Himg, Hfmt. }
  split; [|split; [exact Hblocks|]].
  - unfold encode. by rewrite bind_run, Hblocks.
  - split; [apply after_open_heap|]. split; [apply after_open_random|].
    apply after_open_calls.
Qed.

(** C5.  The sequence the in-place shuffle of [encode_blocks] produces
    holds exactly the coordinates of the canonical grid: the same multiset,
    so no duplicate and no omission, in some order; and the canonical order
    itself is a possible outcome. *)
Theorem encode_blocks_shuffle_permutes image block_size w img grid :
  let s := default BLOCK_SIZE block_size in
  let permutation := fst (shuffle grid (random (after_open image w))) in
  image_behind image = Fine img →
  format_allowed (format img) = true →
  create_block_grid (fst (size img)) (snd (size img)) s = Fine grid →
  permutation ≡ₚ grid
  ∧ length permutation = length grid
  ∧ (∀ c, c ∈ permutation ↔ c ∈ grid)
  ∧ (NoDup grid → NoDup permutation)
  ∧ (∀ enc, arrange_blocks img s (of_coordinate <$> permutation) = Fine enc →
       ∃ blocks w2,
         encode_blocks image block_size w = (Return (blocks, enc), w2)
         ∧ heap w2 !! blocks =
             Some (of_coordinate (size img) :: (PyInt s, PyInt s)
                   :: (of_coordinate <$> permutation)))
  ∧ (∃ r, fst (shuffle grid r) = grid
       ∧ ∀ enc, arrange_blocks img s (of_coordinate <$> grid) = Fine enc →
           ∃ blocks w2,
             encode_blocks image block_size (set_random r w) = (Return (blocks, enc), w2)
             ∧ heap w2 !! blocks =
                 Some (of_coordinate (size img) :: (PyInt s, PyInt s)
                       :: (of_coordinate <$> grid))).
Proof.
  intros s permutation Himg Hfmt Hgrid.
  assert (permutation ≡ₚ grid) as Hperm by apply shuffle_Permutation.
  split; [exact Hperm|]. split; [by rewrite Hperm|].
  split; [intros c; by rewrite Hperm|]. split; [intros H; by rewrite Hperm|].
  split.
  - intros enc Harr. eexists _, _.
    split; [by apply (encode_blocks_run image block_size w img grid enc)|].
    apply lookup_insert_eq.
  - exists (identity_random (length grid) (random w)).
    split; [apply shuffle_identity|].
    intros enc Harr.
    assert (random (after_open image (set_random (identity_random (length grid) (random w)) w))
            = identity_random (length grid) (random w)) as Hr
      by (by rewrite after_open_random).
    eexists _, _. split.
    + apply (encode_blocks_run image block_size _ img grid enc Himg Hfmt Hgrid).
      rewrite Hr, shuffle_identity. exact Harr.
    + simpl. rewrite Hr, shuffle_identity. apply lookup_insert_eq.
Qed.

(** [int] on a finite float truncates toward zero: the result has the
    float's sign and the integer part of its magnitude. *)
Lemma py_int_float_truncates m e z :
  py_int (PyFloat m e) = Return z →
  (0 ≤ e → z = m * 2 ^ e)
  ∧ (e < 0 →
     Z.abs z * 2 ^ (- e) ≤ Z.abs m < (Z.abs z + 1) * 2 ^ (- e)
     ∧ 0 ≤ z * m).
Proof.
  intros [= <-]. split.
  - intros He. by rewrite (proj2 (Z.leb_le 0 e) He).
  - intros He. rewrite (proj2 (Z.leb_gt 0 e) He).
    assert (0 < 2 ^ (- e)) as Hd by (apply Z.pow_pos_nonneg; lia).
    set (d := 2 ^ (- e)) in *.
    split.
    + rewrite <- Z.quot_abs by lia.
      rewrite (Z.abs_eq d) by lia.
      rewrite Z.quot_div_nonneg by lia.
      split.
      * rewrite Z.mul_comm. apply Z.mul_div_le. lia.
      * rewrite Z.mul_comm. apply Z.mul_succ_div_gt. lia.
    + destruct (Z.le_gt_cases 0 m) as [Hm|Hm].
      * apply Z.mul_nonneg_nonneg; [|done]. apply Z.quot_pos; lia.
      * rewrite <- Z.mul_opp_opp. apply Z.mul_nonneg_nonneg; [|lia].
        rewrite <- Z.quot_opp_l by lia. apply Z.quot_pos; lia.
Qed.

(** C6.  Every number in the payload of [add_data_image] went through
    [int]: either each component of each entry is converted and the
    payload is made of the converted integers, a fractional component
    truncated toward zero, or a conversion raises and nothing is handed to
    the embedding. *)
Theorem add_data_image_coerces image blocks w img items :
  image_behind image = Fine img →
  format_allowed (format img) = true →
  heap w !! blocks = Some items →
  ((∃ ints,
      Forall2 coerced items ints
      ∧ add_data_image image blocks w
        = call_hide lsb_hide img (json_dumps (flatten ints)) (after_open image w))
   ∨ (∃ e,
        (e = ValueError ∨ e = OverflowError)
        ∧ add_data_image image blocks w = (Raise e, after_open image w)))
  ∧ (∀ m e z, py_int (PyFloat m e) = Return z →
       (0 ≤ e → z = m * 2 ^ e)
       ∧ (e < 0 →
          Z.abs z * 2 ^ (- e) ≤ Z.abs m < (Z.abs z + 1) * 2 ^ (- e) ∧ 0 ≤ z * m)).
Proof.
  intros Himg Hfmt Hitems. split; [|apply py_int_float_truncates].
  rewrite add_data_image_cases, Himg, Hfmt, Hitems.
  destruct (fill_number_list [] items) as [number_list|e] eqn:Hfill.
  - left. apply fill_number_list_inv in Hfill as (ints & Hints & ->).
    by exists ints.
  - right. exists e. split; [by apply (fill_number_list_raise items [])|done].
Qed.


(** C8.  The flattened integer sequence the encode pipeline embeds has two
    integers per entry of the list, the two leading pairs included: its
    length is even and at least 4, so the shape check of the decoder does
    not fire on it. *)
Theorem encode_payload_well_formed image block_size w img grid enc :
  let s := default BLOCK_SIZE block_size in
  let permutation := fst (shuffle grid (random (after_open image w))) in
  image_behind image = Fine img →
  format_allowed (format img) = true →
  create_block_grid (fst (size img)) (snd (size img)) s = Fine grid →
  arrange_blocks img s (of_coordinate <$> permutation) = Fine enc →
  format_allowed (format enc) = true →
  ∃ blocks w2 items number_list,
    encode_blocks image block_size w = (Return (blocks, enc), w2)
    ∧ heap w2 !! blocks = Some items
    ∧ fill_number_list [] items = Return number_list
    ∧ encode image block_size w = call_hide lsb_hide enc (json_dumps number_list) w2
    ∧ length number_list = (2 * length items)%nat
    ∧ length items = (2 + length grid)%nat
    ∧ Nat.even (length number_list) = true
    ∧ (4 ≤ length number_list)%nat
    ∧ FromSpec.malformed_payload number_list = false.
Proof.
  intros s permutation Himg Hfmt Hgrid Harr Henc.
  destruct (encode_run image block_size w img grid enc Himg Hfmt Hgrid Harr Henc)
    as (w2 & Hblocks & _ & Hencode).
  pose proof Hblocks as Hrun.
  rewrite (encode_blocks_run image block_size w img grid enc Himg Hfmt Hgrid Harr) in Hrun.
  injection Hrun as <-.
  eexists _, _, _, _.
  split; [exact Hblocks|]. split; [apply lookup_insert_eq|].
  split; [apply fill_number_list_metadata|]. split; [exact Hencode|].
  assert (length (fst (size img) :: snd (size img) :: s :: s :: flatten permutation)
          = (4 + 2 * length grid)%nat) as Hlen.
  { simpl. rewrite length_flatten. unfold permutation. by rewrite shuffle_length. }
  fold s permutation. unfold FromSpec.malformed_payload. rewrite Hlen.
  assert (length (of_coordinate <$> permutation) = length grid) as Hitems.
  { rewrite length_fmap. apply shuffle_length. }
  split; [simpl; rewrite Hitems; lia|]. split; [simpl; rewrite Hitems; lia|].
  assert (Nat.even (4 + 2 * length grid) = true) as Heven.
  { change (Nat.even (2 * length grid) = true). apply Nat.even_spec. by exists (length grid). }
  split; [exact Heven|]. split; [lia|].
  rewrite <- Nat.negb_even, Heven. simpl.
  apply Nat.ltb_ge. lia.
Qed.

(** C9.  [add_data_image] and [encode_blocks] take an image or a path.  A
    path is opened before the format is looked at; when the file opens,
    the run continues as the run on the opened image, and when it does
    not, the failure of [PIL.Image.open] leaves the function. *)
Theorem path_is_opened_first p blocks block_size w :
  match Image_open p with
  | Fine img =>
      add_data_image (Path p) blocks w
      = add_data_image (Img img) blocks (after_open (Path p) w)
      ∧ encode_blocks (Path p) block_size w
        = encode_blocks (Img img) block_size (after_open (Path p) w)
  | Failed message =>
      add_data_image (Path p) blocks w
      = (Raise (LibraryError PIL message), after_open (Path p) w)
      ∧ encode_blocks (Path p) block_size w
        = (Raise (LibraryError PIL message), after_open (Path p) w)
  end.
Proof.
  destruct (Image_open p) as [img|message] eqn:Hopen;
    rewrite !add_data_image_cases, !encode_blocks_cases; simpl; by rewrite Hopen.
Qed.

(** C10.  [add_data_image] leaves its [blocks] argument as it found it:
    the store of lists after the call is the store before the call,
    whatever the outcome. *)
Theorem add_data_image_preserves_blocks image blocks w :
  heap (snd (add_data_image image blocks w)) = heap w
  ∧ heap (snd (add_data_image image blocks w)) !! blocks = heap w !! blocks.
Proof.
  assert (heap (snd (add_data_image image blocks w)) = heap w) as H.
  { rewrite add_data_image_cases.
    destruct (image_behind image) as [img|]; [|apply after_open_heap].
    destruct (format_allowed (format img)); [|apply after_open_heap].
    destruct (heap w !! blocks) as [items|]; [|apply after_open_heap].
    destruct (fill_number_list [] items); [|apply after_open_heap].
    rewrite call_hide_run. simpl. apply after_open_heap. }
  by rewrite H.
Qed.

End Runs.

(** ** The claims on concrete inputs *)

Lemma encode_payload_wire_format_witness :
  ∃ w2,
    encode 2 sample_open FromSpec.create_block_grid FromSpec.arrange_blocks sample_hide
      (Img small_image) None empty_world
    = (Return small_arranged,
       {| heap := heap w2; random := random w2;
          calls := Call_hide small_arranged "[4,4,2,2,0,0,0,2,2,0,2,2]" :: calls w2 |}).
Proof.
  destruct (encode_payload_wire_format 2 sample_open FromSpec.create_block_grid
              FromSpec.arrange_blocks sample_hide (Img small_image) None empty_world
              small_image small_grid small_arranged)
    as (blocks & w2 & _ & _ & H & _); [reflexivity..|].
  exists w2. exact H.
Defined.

Lemma encode_blocks_sentinels_witness :
  ∃ blocks w2 rest,
    encode_blocks 2 sample_open FromSpec.create_block_grid FromSpec.arrange_blocks
      (Img sample_image) (Some 32) empty_world
    = (Return (blocks, sample_arranged), w2)
    ∧ heap w2 !! blocks = Some ((PyInt 256, PyInt 256) :: (PyInt 32, PyInt 32) :: rest)
    ∧ length rest = 64%nat.
Proof.
  destruct (encode_blocks_sentinels 2 sample_open FromSpec.create_block_grid
              FromSpec.arrange_blocks (Img sample_image) (Some 32) empty_world
              sample_image sample_grid sample_arranged)
    as (blocks & w2 & Hrun & Hlist & Hperm);
    [reflexivity | reflexivity | vm_compute; reflexivity | vm_compute; reflexivity |].
  exists blocks, w2. eexists. split; [exact Hrun|]. split; [exact Hlist|].
  rewrite length_fmap, Hperm. reflexivity.
Defined.

Lemma format_gate_iff_witness :
  add_data_image sample_open sample_hide (Path "photo.jpg") 1%positive empty_world
  = (Raise (ImageFormatError sample_jpeg), after_open (Path "photo.jpg") empty_world)
  ∧ encode_blocks 2 sample_open FromSpec.create_block_grid FromSpec.arrange_blocks
      (Path "photo.jpg") None empty_world
    = (Raise (ImageFormatError sample_jpeg), after_open (Path "photo.jpg") empty_world).
Proof.
  destruct (format_gate_iff 2 sample_open FromSpec.create_block_grid
              FromSpec.arrange_blocks sample_hide (Path "photo.jpg") 1%positive None
              empty_world sample_jpeg eq_refl) as (_ & _ & H).
  apply H. split; discriminate.
Defined.

Lemma encode_rejects_before_processing_witness :
  encode 2 sample_open FromSpec.create_block_grid FromSpec.arrange_blocks sample_hide
    (Img sample_jpeg) None empty_world
  = (Raise (ImageFormatError sample_jpeg), empty_world).
Proof.
  destruct (encode_rejects_before_processing 2 sample_open FromSpec.create_block_grid
              FromSpec.arrange_blocks sample_hide (Img sample_jpeg) None empty_world
              sample_jpeg eq_refl eq_refl) as (H & _).
  exact H.
Defined.

Lemma encode_blocks_shuffle_permutes_witness :
  fst (shuffle small_grid sample_random) = [(0, 0); (0, 2); (2, 0); (2, 2)]
  ∧ fst (shuffle small_grid sample_random) ≡ₚ small_grid
  ∧ ∃ r, fst (shuffle small_grid r) = small_grid.
Proof.
  destruct (encode_blocks_shuffle_permutes 2 sample_open FromSpec.create_block_grid
              FromSpec.arrange_blocks (Img small_image) None empty_world
              small_image small_grid eq_refl eq_refl eq_refl)
    as (Hperm & _ & _ & _ & _ & r & Hr & _).
  split; [reflexivity|]. split; [exact Hperm|]. exists r. exact Hr.
Defined.

Lemma add_data_image_coerces_witness :
  ∃ ints,
    Forall2 coerced fractional_blocks ints
    ∧ add_data_image sample_open sample_hide (Img small_image) 1%positive fractional_world
      = call_hide sample_hide small_image (json_dumps (flatten ints)) fractional_world.
Proof.
  destruct (add_data_image_coerces sample_open sample_hide (Img small_image) 1%positive
              fractional_world small_image fractional_blocks eq_refl eq_refl eq_refl)
    as [[(ints & Hints & H)|(e & _ & H)] _].
  - exists ints. split; [exact Hints|exact H].
  - vm_compute in H. discriminate H.
Defined.


Lemma encode_payload_well_formed_witness :
  ∃ w2 number_list,
    encode 2 sample_open FromSpec.create_block_grid FromSpec.arrange_blocks sample_hide
      (Img small_image) None empty_world
    = call_hide sample_hide small_arranged (json_dumps number_list) w2
    ∧ length number_list = 12%nat
    ∧ FromSpec.malformed_payload number_list = false.
Proof.
  destruct (encode_payload_well_formed 2 sample_open FromSpec.create_block_grid
              FromSpec.arrange_blocks sample_hide (Img small_image) None empty_world
              small_image small_grid small_arranged eq_refl eq_refl eq_refl eq_refl eq_refl)
    as (blocks & w2 & items & number_list & _ & _ & _ & H & Hlen & Hitems & _ & _ & Hok).
  exists w2, number_list. split; [exact H|]. split; [|exact Hok].
  rewrite Hlen, Hitems. reflexivity.
Defined.

(** ** Runs on concrete inputs *)

Example add_data_image_truncates :
  add_data_image sample_open sample_hide (Img small_image) 1%positive fractional_world
  = (Return small_image,
     {| heap := heap fractional_world; random := sample_random;
        calls := [Call_hide small_image "[2,3,-4,-3]"] |}).
Proof. reflexivity. Qed.

Example add_data_image_nan :
  add_data_image sample_open sample_hide (Img small_image) 1%positive nan_world
  = (Raise ValueError, nan_world).
Proof. reflexivity. Qed.

Example add_data_image_path :
  fst (add_data_image sample_open sample_hide (Path "image.png") 1%positive fractional_world)
  = Return sample_image
  ∧ fst (add_data_image sample_open sample_hide (Path "missing.png") 1%positive fractional_world)
    = Raise (LibraryError PIL "No such file or directory").
Proof. split; reflexivity. Qed.

Example encode_256_32 :
  ∃ rest w2,
    encode 2 sample_open FromSpec.create_block_grid FromSpec.arrange_blocks sample_hide
      (Img sample_image) (Some 32) empty_world
    = (Return sample_arranged, w2)
    ∧ heap w2 !! 1%positive
      = Some ((PyInt 256, PyInt 256) :: (PyInt 32, PyInt 32) :: rest)
    ∧ length rest = 64%nat.
Proof. eexists _, _. split; [vm_compute; reflexivity|]. split; vm_compute; reflexivity. Qed.

(** * Further properties of the module *)

Section Effects.

Variable BLOCK_SIZE : Z.
Variable Image_open : string → answer Image.
Variable create_block_grid : Z → Z → Z → answer (list Coordinate).
Variable arrange_blocks : Image → Z → list pair → answer Image.
Variable lsb_hide : Image → string → answer Image.

Abbreviation image_behind := (image_behind Image_open).
Abbreviation encode_blocks :=
  (encode_blocks BLOCK_SIZE Image_open create_block_grid arrange_blocks).
Abbreviation add_data_image := (add_data_image Image_open lsb_hide).
Abbreviation encode :=
  (encode BLOCK_SIZE Image_open create_block_grid arrange_blocks lsb_hide).

(** A successful [encode] calls each collaborator once, in the order grid
    builder, shuffle, arranger, embedding; a path is opened once, before
    them, and not again by [add_data_image]; the embedding is called on
    the arranged image even when it then fails. *)
Theorem encode_call_order image block_size w img grid enc :
  let s := default BLOCK_SIZE block_size in
  let permutation := fst (shuffle grid (random (after_open image w))) in
  let blocks := fresh (dom (heap w)) in
  image_behind image = Fine img →
  format_allowed (format img) = true →
  create_block_grid (fst (size img)) (snd (size img)) s = Fine grid →
  arrange_blocks img s (of_coordinate <$> permutation) = Fine enc →
  format_allowed (format enc) = true →
  calls (snd (encode image block_size w))
  = Call_hide enc
      (json_dumps (fst (size img) :: snd (size img) :: s :: s :: flatten permutation))
    :: Call_arrange_blocks img s blocks
    :: Call_shuffle blocks
    :: Call_create_block_grid (fst (size img)) (snd (size img)) s
    :: calls (after_open image w).
Proof.
  intros s permutation blocks Himg Hfmt Hgrid Harr Henc.
  destruct (encode_run BLOCK_SIZE Image_open create_block_grid arrange_blocks lsb_hide
              image block_size w img grid enc Himg Hfmt Hgrid Harr Henc)
    as (w2 & Hblocks & _ & ->).
  rewrite (encode_blocks_run BLOCK_SIZE Image_open create_block_grid arrange_blocks
             image block_size w img grid enc Himg Hfmt Hgrid Harr) in Hblocks.
  injection Hblocks as <-.
  rewrite call_hide_run. cbn [snd calls]. unfold blocks.
  by rewrite (after_open_heap image w).
Qed.

(** A failure inside a collaborator leaves [encode] as it is, and the
    world shows how far the run came.  When the grid builder fails the
    store and the generator are untouched; when the arranger fails the
    generator has moved and the new list holds the shuffled grid without
    the two leading pairs; in both cases nothing is embedded. *)
Theorem encode_collaborator_failure image block_size w img :
  let s := default BLOCK_SIZE block_size in
  let w1 := after_open image w in
  let blocks := fresh (dom (heap w)) in
  let grid_call := Call_create_block_grid (fst (size img)) (snd (size img)) s in
  image_behind image = Fine img →
  format_allowed (format img) = true →
  match create_block_grid (fst (size img)) (snd (size img)) s with
  | Failed message =>
      encode image block_size w
      = (Raise (LibraryError shared message),
         {| heap := heap w; random := random w; calls := grid_call :: calls w1 |})
  | Fine grid =>
      let permutation := fst (shuffle grid (random w)) in
      ∀ message,
        arrange_blocks img s (of_coordinate <$> permutation) = Failed message →
        encode image block_size w
        = (Raise (LibraryError shared message),
           {| heap := <[blocks := of_coordinate <$> permutation]> (heap w);
              random := snd (shuffle grid (random w));
              calls := Call_arrange_blocks img s blocks :: Call_shuffle blocks
                       :: grid_call :: calls w1 |})
  end.
Proof.
  intros s w1 blocks grid_call Himg Hfmt.
  unfold encode. rewrite bind_run, encode_blocks_cases, Himg, Hfmt. cbv zeta.
  rewrite (after_open_heap image w), (after_open_random image w).
  destruct (create_block_grid _ _ _) as [grid|message]; [|done].
  intros message Harr. fold s. by rewrite Harr.
Qed.

Lemma fill_number_list_app good ints rest number_list :
  Forall2 coerced good ints →
  fill_number_list number_list (good ++ rest)
  = fill_number_list (number_list ++ flatten ints) rest.
Proof.
  intros H. revert number_list.
  induction H as [|[x y] [cx cy] good ints [Hx Hy] _ IH]; intros number_list; simpl.
  - by rewrite app_nil_r.
  - simpl in Hx, Hy. rewrite Hx, Hy, IH. unfold flatten. simpl.
    by rewrite <- !app_assoc.
Qed.

(** [add_data_image] converts the components in list order, x before y,
    and stops at the first one [int] refuses: that component's exception
    leaves the function, whatever follows in the list, and the embedding
    is not called. *)
Theorem add_data_image_first_failure image blocks w img
    (good : list pair) ints (x y : PyNum) (rest : list pair) e :
  image_behind image = Fine img →
  format_allowed (format img) = true →
  heap w !! blocks = Some (good ++ ((x, y) : pair) :: rest) →
  Forall2 coerced good ints →
  py_int x = Raise e ∨ (∃ z, py_int x = Return z) ∧ py_int y = Raise e →
  add_data_image image blocks w = (Raise e, after_open image w).
Proof.
  intros Himg Hfmt Hitems Hgood Hbad.
  rewrite add_data_image_cases, Himg, Hfmt, Hitems.
  rewrite (fill_number_list_app good ints) by done. simpl.
  destruct Hbad as [->|[[z ->] ->]]; done.
Qed.

(** On a list of integer pairs the message is the compact JSON array of
    the pairs flattened in order, the empty list giving [[]]; the outcome
    of [add_data_image] is the outcome of the embedding on the image that
    passed the gate: the image it returns, or its failure. *)
Theorem add_data_image_integral image blocks w img cs :
  let message := json_dumps (flatten cs) in
  image_behind image = Fine img →
  format_allowed (format img) = true →
  heap w !! blocks = Some (of_coordinate <$> cs) →
  add_data_image image blocks w
  = (match lsb_hide img message with
     | Fine hidden => Return hidden
     | Failed failure => Raise (LibraryError stegano failure)
     end,
     {| heap := heap w; random := random w;
        calls := Call_hide img message :: calls (after_open image w) |})
  ∧ (cs = [] → message = "[]"%string).
Proof.
  intros message Himg Hfmt Hitems. split; [|by intros ->].
  rewrite add_data_image_cases, Himg, Hfmt, Hitems.
  rewrite (fill_number_list_coerced _ cs) by apply coerced_of_coordinate.
  rewrite call_hide_run. simpl.
  by rewrite (after_open_heap image w), (after_open_random image w).
Qed.

End Effects.

(** ** The payload determines the metadata *)

(** The message [encode] embeds determines the metadata: two messages are
    equal only if the image sizes, the block sizes and the permutations
    are equal, coordinate by coordinate. *)
Theorem payload_determines_metadata (w1 h1 s1 w2 h2 s2 : Z) (p1 p2 : list Coordinate) :
  json_dumps (w1 :: h1 :: s1 :: s1 :: flatten p1)
  = json_dumps (w2 :: h2 :: s2 :: s2 :: flatten p2)
  ↔ w1 = w2 ∧ h1 = h2 ∧ s1 = s2 ∧ p1 = p2.
Proof.
  split.
  - intros [= -> -> -> _ H]%json_dumps_inj. by apply flatten_inj in H as ->.
  - by intros (-> & -> & -> & ->).
Qed.

Section Pipeline.

Variable BLOCK_SIZE : Z.
Variable Image_open : string → answer Image.
Variable create_block_grid : Z → Z → Z → answer (list Coordinate).
Variable arrange_blocks : Image → Z → list pair → answer Image.
Variable lsb_hide : Image → string → answer Image.

Abbreviation image_behind := (image_behind Image_open).
Abbreviation encode_blocks :=
  (encode_blocks BLOCK_SIZE Image_open create_block_grid arrange_blocks).
Abbreviation encode :=
  (encode BLOCK_SIZE Image_open create_block_grid arrange_blocks lsb_hide).

(** [encode] on a path opens the file once, before anything else, and
    then runs as [encode] on the opened image; when the file does not
    open, the failure of [PIL.Image.open] leaves [encode] and nothing else
    has happened. *)
Theorem encode_opens_path_first p block_size w :
  match Image_open p with
  | Fine img =>
      encode (Path p) block_size w = encode (Img img) block_size (after_open (Path p) w)
  | Failed message =>
      encode (Path p) block_size w
      = (Raise (LibraryError PIL message),
         {| heap := heap w; random := random w; calls := Call_open p :: calls w |})
  end.
Proof.
  unfold encode.
  destruct (Image_open p) as [img|message] eqn:Hopen;
    rewrite !bind_run, !encode_blocks_cases; simpl; by rewrite Hopen.
Qed.

(** An image that [encode] returns was produced by the embedding: the
    argument resolved to an image that passed the gate, the grid builder
    and the arranger succeeded, the arranged image passed the gate, and
    [lsb_hide] answered the returned image for the arranged image and the
    metadata message.  In every other case [encode] raises. *)
Theorem encode_inv image block_size w hidden w' :
  encode image block_size w = (Return hidden, w') →
  ∃ img grid enc,
    let s := default BLOCK_SIZE block_size in
    let permutation := fst (shuffle grid (random (after_open image w))) in
    image_behind image = Fine img
    ∧ format_allowed (format img) = true
    ∧ create_block_grid (fst (size img)) (snd (size img)) s = Fine grid
    ∧ arrange_blocks img s (of_coordinate <$> permutation) = Fine enc
    ∧ format_allowed (format enc) = true
    ∧ lsb_hide enc
        (json_dumps (fst (size img) :: snd (size img) :: s :: s :: flatten permutation))
      = Fine hidden.
Proof.
  unfold encode. rewrite bind_run.
  destruct (encode_blocks image block_size w) as [[[blocks enc]|e] w2] eqn:Hblocks;
    [|done].
  destruct (encode_blocks_inv _ _ _ _ _ _ _ _ _ _ Hblocks)
    as (img & grid & Himg & Hfmt & Hgrid & Harr).
  rewrite (encode_blocks_run BLOCK_SIZE Image_open create_block_grid arrange_blocks
             image block_size w img grid enc Himg Hfmt Hgrid Harr) in Hblocks.
  injection Hblocks as <- <-. cbn [fst snd].
  rewrite add_data_image_cases. simpl.
  destruct (format_allowed (format enc)) eqn:Henc; [|done].
  rewrite lookup_insert_eq, fill_number_list_metadata, call_hide_run.
  destruct (lsb_hide enc _) as [v|] eqn:Hhide; [|done].
  intros [= <- _]. by exists img, grid, enc.
Qed.

End Pipeline.

(** ** The further properties on concrete inputs *)

Lemma encode_call_order_witness :
  calls (snd (encode 2 sample_open FromSpec.create_block_grid FromSpec.arrange_blocks
                sample_hide (Img small_image) None empty_world))
  = [Call_hide small_arranged "[4,4,2,2,0,0,0,2,2,0,2,2]";
     Call_arrange_blocks small_image 2 1%positive;
     Call_shuffle 1%positive;
     Call_create_block_grid 4 4 2].
Proof.
  exact (encode_call_order 2 sample_open FromSpec.create_block_grid
           FromSpec.arrange_blocks sample_hide (Img small_image) None empty_world
           small_image small_grid small_arranged eq_refl eq_refl eq_refl eq_refl eq_refl).
Defined.

Lemma encode_collaborator_failure_witness :
  encode 2 sample_open FromSpec.create_block_grid FromSpec.arrange_blocks sample_hide
    (Img small_image) (Some 0) empty_world
  = (Raise (LibraryError shared "block size must be positive"),
     {| heap := ∅; random := sample_random; calls := [Call_create_block_grid 4 4 0] |}).
Proof.
  exact (encode_collaborator_failure 2 sample_open FromSpec.create_block_grid
           FromSpec.arrange_blocks sample_hide (Img small_image) (Some 0) empty_world
           small_image eq_refl eq_refl).
Defined.

Lemma add_data_image_first_failure_witness :
  add_data_image sample_open sample_hide (Img small_image) 1%positive overflow_world
  = (Raise OverflowError, overflow_world).
Proof.
  apply (add_data_image_first_failure sample_open sample_hide (Img small_image)
           1%positive overflow_world small_image
           [(PyInt 1, PyFloat 5 (-1))] [(1, 2)] (PyInf false) PyNaN [(PyNaN, PyInt 0)]
           OverflowError eq_refl eq_refl eq_refl).
  - constructor; [split; reflexivity|constructor].
  - left. reflexivity.
Defined.

Lemma add_data_image_integral_witness :
  add_data_image sample_open narrow_hide (Img small_image) 1%positive integral_world
  = (Raise (LibraryError stegano "The message you want to hide is too long"),
     {| heap := heap integral_world; random := sample_random;
        calls := [Call_hide small_image "[0,0,2,0,-1,7]"] |})
  ∧ fst (add_data_image sample_open narrow_hide (Img small_image) 1%positive
           empty_list_world)
    = Return small_image.
Proof.
  split.
  - exact (proj1 (add_data_image_integral sample_open narrow_hide (Img small_image)
                    1%positive integral_world small_image [(0, 0); (2, 0); (-1, 7)]
                    eq_refl eq_refl eq_refl)).
  - rewrite (proj1 (add_data_image_integral sample_open narrow_hide (Img small_image)
                      1%positive empty_list_world small_image []
                      eq_refl eq_refl eq_refl)).
    reflexivity.
Defined.

Lemma encode_blocks_inv_witness :
  ∃ img grid,
    image_behind sample_open (Img small_image) = Fine img
    ∧ format_allowed (format img) = true
    ∧ FromSpec.create_block_grid (fst (size img)) (snd (size img)) 2 = Fine grid
    ∧ FromSpec.arrange_blocks img 2
        (of_coordinate <$> fst (shuffle grid sample_random)) = Fine small_arranged.
Proof.
  exact (encode_blocks_inv 2 sample_open FromSpec.create_block_grid
           FromSpec.arrange_blocks (Img small_image) None empty_world
           1%positive small_arranged
           (snd (encode_blocks 2 sample_open FromSpec.create_block_grid
                   FromSpec.arrange_blocks (Img small_image) None empty_world))
           eq_refl).
Defined.

Lemma encode_inv_witness :
  ∃ img grid enc,
    image_behind sample_open (Img small_image) = Fine img
    ∧ FromSpec.create_block_grid (fst (size img)) (snd (size img)) 2 = Fine grid
    ∧ sample_hide enc
        (json_dumps (fst (size img) :: snd (size img) :: 2 :: 2
                     :: flatten (fst (shuffle grid sample_random))))
      = Fine small_arranged.
Proof.
  destruct (encode_inv 2 sample_open FromSpec.create_block_grid FromSpec.arrange_blocks
              sample_hide (Img small_image) None empty_world small_arranged
              (snd (encode 2 sample_open FromSpec.create_block_grid
                      FromSpec.arrange_blocks sample_hide (Img small_image) None
                      empty_world))
              eq_refl)
    as (img & grid & enc & Himg & _ & Hgrid & _ & _ & Hhide).
  exists img, grid, enc. split; [exact Himg|]. split; [exact Hgrid|exact Hhide].
Defined.
